(** * CoreFlow360 payroll arithmetic: progressive tax, deductions, rounding

    Shallow embedding of the payroll arithmetic of
    [src/modules/erpnext/api/integration.py] (class [ERPNextIntegration]):
    [_calculate_progressive_tax], [_calculate_deductions] and
    [_round_decimal].

    Numbers.  A finite Python number is embedded as the rational it denotes
    ([Q]); comparisons are the decidable orders of [Q], and [min] is Python's
    two-argument [min] (the first argument unless the second is strictly
    smaller).  The code is embedded twice:
    - exactly, every operation giving the exact rational result: the
      arithmetic the bracket walk performs when nothing rounds;
    - in rounded arithmetic ([Module Float], [Module Deductions]): every
      [+], [-], [*], [/], every decimal literal and every conversion to
      [float] is followed by the rounding [rnd] of a [float_format].  The
      format [binary64] rounds as IEEE 754 double precision does (nearest,
      ties to even), computed with the standard library's [SFdiv]; the
      format [exact_arithmetic] does not round.  Infinities and NaN are not
      values of the embedding.

    Failure.  A Python call either returns a value or raises; functions are
    embedded in the [outcome] monad.  List indexing and
    [Decimal.quantize] are the operations of this code that can raise. *)

From Stdlib Require Import QArith Qround Qabs Qminmax Lqa Lia ZArith SpecFloat.
From stdpp Require Import gmap strings list fin_maps.

Local Open Scope Q_scope.

(** ** Data *)

(** A tax bracket is the Python tuple [(threshold, rate)]. *)
Abbreviation bracket := (Q * Q)%type.

(** Python's [min(a, b)]. *)
Definition py_min (a b : Q) : Q := if Qlt_le_dec b a then b else a.

(** ** Outcome of a call

    [IndexError] is what [tax_brackets[i + 1]] raises out of range;
    [InvalidOperation] is what [Decimal.quantize] signals when the result
    needs more digits than the precision of the context.
    [InvalidConfiguration] and [InvalidInput] are the two error kinds the
    specification names; the source defines and raises neither. *)

Inductive py_error :=
  IndexError | InvalidOperation | InvalidConfiguration | InvalidInput.

Inductive outcome (A : Type) :=
  | Returns (value : A)
  | Raises (e : py_error).
Arguments Returns {A} value.
Arguments Raises {A} e.

#[export] Instance outcome_ret : MRet outcome := fun A x => Returns x.

#[export] Instance outcome_bind : MBind outcome :=
  fun A B f m =>
    match m with
    | Returns x => f x
    | Raises e => Raises e
    end.

(** [l[i]] for a non-negative index. *)
Definition py_index {A : Type} (l : list A) (i : nat) : outcome A :=
  match l !! i with
  | Some x => Returns x
  | None => Raises IndexError
  end.

(** ** [_calculate_progressive_tax] *)

Module ProgressiveTax.

(** State of the [for] loop: [total_tax] and [remaining_income]. *)
Record loop_state := LoopState { total_tax : Q; remaining_income : Q }.

(** The part of the loop body up to the comment "Calculate tax for this
    bracket": the amount of [remaining_income] that falls in bracket [i]. *)
Definition taxable_in_bracket (tax_brackets : list bracket) (i : nat)
    (threshold remaining_income : Q) : outcome Q :=
  if (i <? length tax_brackets - 1)%nat then
    next ← py_index tax_brackets (S i);
    let next_threshold := next.1 in
    mret (py_min remaining_income (next_threshold - threshold))
  else mret remaining_income.

(** One pass over [enumerate(tax_brackets)], started at index [i] with
    [todo] the brackets from index [i] on; [tax_brackets] is the whole
    table, read at [i + 1].  [break] returns the state reached. *)
Fixpoint loop (annual_income : Q) (tax_brackets : list bracket)
    (i : nat) (todo : list bracket) (st : loop_state) : outcome loop_state :=
  match todo with
  | [] => Returns st
  | (threshold, rate) :: todo' =>
      if Qlt_le_dec 0 (remaining_income st) then
        match taxable_in_bracket tax_brackets i threshold (remaining_income st) with
        | Returns taxable =>
            if Qlt_le_dec threshold annual_income then
              let tax_in_bracket :=
                py_min taxable (annual_income - threshold) * rate in
              loop annual_income tax_brackets (S i) todo'
                (LoopState (total_tax st + tax_in_bracket)
                           (remaining_income st - taxable))
            else loop annual_income tax_brackets (S i) todo' st
        | Raises e => Raises e
        end
      else Returns st
  end.

Definition _calculate_progressive_tax
    (annual_income : Q) (tax_brackets : list bracket) : outcome Q :=
  st ← loop annual_income tax_brackets 0 tax_brackets (LoopState 0 annual_income);
  mret (total_tax st).

End ProgressiveTax.

Export ProgressiveTax.

(** ** [_round_decimal], the rounding rule

    [float(Decimal(str(value)).quantize(Decimal('0.01'), rounding=ROUND_HALF_UP))].
    [quantize] to exponent [-2] with [ROUND_HALF_UP] keeps the sign and rounds
    the magnitude to the nearest hundredth, a tie going up in magnitude:
    [quantize_half_up] is that step on the exact decimal, and [_round_decimal]
    here is the rule alone, on exact values.  The whole call, with [str],
    the precision of the decimal context and the final [float], is
    [Float._round_decimal] below. *)

(** Coefficient of the quantized decimal: the signed number of hundredths. *)
Definition quantize_half_up (value : Q) : Z :=
  let magnitude := Qfloor (Qabs value * 100 + (1 # 2)) in
  if Qlt_le_dec value 0 then (- magnitude)%Z else magnitude.

Definition _round_decimal (value : Q) : Q := quantize_half_up value # 100.

(** ** Configuration set up by [__init__]: [self.tax_configurations] *)

Record us_tax_config := USTaxConfig {
  federal_income_tax_brackets : list bracket;
  social_security : Q;
  medicare : Q;
  unemployment : Q;
  state_variations : bool
}.

Record in_tax_config := INTaxConfig {
  in_income_tax_brackets : list bracket;
  pf : Q;
  esi : Q;
  professional_tax : Q
}.

Record uk_tax_config := UKTaxConfig {
  uk_income_tax_brackets : list bracket;
  ni_employee : Q;
  ni_employer : Q;
  pension_auto_enrollment : Q
}.

(** The dictionary keyed by ['US'], ['IN'], ['UK']. *)
Record tax_configurations := TaxConfigurations {
  cfg_US : us_tax_config;
  cfg_IN : in_tax_config;
  cfg_UK : uk_tax_config
}.

(** The values written by [__init__]. *)
Definition init_tax_configurations : tax_configurations :=
  {| cfg_US :=
       {| federal_income_tax_brackets :=
            [(0, 0.10); (9950, 0.12); (40525, 0.22); (86375, 0.24)];
          social_security := 0.062;
          medicare := 0.0145;
          unemployment := 0.006;
          state_variations := true |};
     cfg_IN :=
       {| in_income_tax_brackets :=
            [(0, 0.0); (250000, 0.05); (500000, 0.20); (1000000, 0.30)];
          pf := 0.12;
          esi := 0.0075;
          professional_tax := 200 |};
     cfg_UK :=
       {| uk_income_tax_brackets :=
            [(0, 0.0); (12570, 0.20); (50270, 0.40); (150000, 0.45)];
          ni_employee := 0.12;
          ni_employer := 0.138;
          pension_auto_enrollment := 0.05 |} |}.

(** ** Rounded arithmetic

    A [float_format] gives the rounding applied after every arithmetic
    operation.  Python's [a + b] on floats is [fadd a b], and so on; an [int]
    operand is converted first, which changes nothing for the whole numbers
    of this code. *)

Class float_format := { rnd : Q -> Q }.

(** What the results below need of a rounding: it respects equality of
    rationals and leaves zero alone. *)
Class rounding_laws (F : float_format) := {
  rnd_proper : forall x y : Q, x == y -> rnd x == rnd y;
  rnd_zero : rnd 0 == 0
}.

Section FloatOperations.

Context {F : float_format}.

Definition fadd (x y : Q) : Q := rnd (x + y).
Definition fsub (x y : Q) : Q := rnd (x - y).
Definition fmul (x y : Q) : Q := rnd (x * y).
Definition fdiv (x y : Q) : Q := rnd (x / y).

(** A decimal literal of the source, such as [0.12]: the float nearest to it. *)
Definition literal (q : Q) : Q := rnd q.

(** Python's [sum(values)] on floats: left to right from the integer [0]. *)
Definition fsum (values : list Q) : Q := fold_left fadd values 0.

End FloatOperations.

(** *** The format of the code: IEEE 754 binary64 *)

(** Exact value of a finite binary64 number. *)
Definition SF2Q (f : spec_float) : option Q :=
  match f with
  | S754_zero _ => Some 0
  | S754_finite s m e =>
      let magnitude :=
        match e with
        | Z0 => Zpos m # 1
        | Zpos p => (Zpos m * 2 ^ Zpos p)%Z # 1
        | Zneg p => Zpos m # (2 ^ p)
        end in
      Some (Qred (if s then - magnitude else magnitude))
  | S754_infinity _ | S754_nan => None
  end.

(** The binary64 number nearest to the fraction [n / d] (ties to even):
    the correctly rounded quotient of the two integers.  Beyond the largest
    finite number, where the quotient overflows, the fraction is left as it
    is. *)
Definition nearest_binary64 (n : Z) (d : positive) : Q :=
  match n with
  | Z0 => 0
  | Zpos a =>
      default (n # d)
        (SF2Q (SFdiv 53 1024 (S754_finite false a 0) (S754_finite false d 0)))
  | Zneg a =>
      default (n # d)
        (SF2Q (SFdiv 53 1024 (S754_finite true a 0) (S754_finite false d 0)))
  end.

Definition rnd64 (x : Q) : Q :=
  let x := Qred x in nearest_binary64 (Qnum x) (Qden x).

Definition binary64 : float_format := {| rnd := rnd64 |}.

(** The format that never rounds. *)
Definition exact_arithmetic : float_format := {| rnd := fun x => x |}.

(** *** [str(value)] of a float

    Python prints the shortest decimal that reads back as the same float;
    among the shortest, the one nearest to the float, a tie going to the
    even last digit. *)

Definition pow10 (k : Z) : Q :=
  match k with
  | Z0 => 1
  | Zpos p => inject_Z (10 ^ Zpos p)
  | Zneg p => 1 # (10 ^ p)
  end.

(** The [j] with [10^j <= a < 10^(j+1)], searched upwards from [j]. *)
Fixpoint find_exponent (fuel : nat) (j : Z) (a : Q) : Z :=
  match fuel with
  | O => j
  | S fuel' =>
      if Qlt_le_dec a (pow10 (j + 1)) then j
      else find_exponent fuel' (j + 1) a
  end.

(** Decimal exponent of a positive [a]: the search starts two below an
    estimate from the binary sizes, which is at most one off. *)
Definition decimal_exponent (a : Q) : Z :=
  let estimate :=
    (((Z.log2 (Qnum a) - Z.log2 (Zpos (Qden a))) * 30103) / 100000)%Z in
  find_exponent 6 (estimate - 2) a.

Section Repr.

Context {F : float_format}.

(** The decimal of [n], [n + 1], ... significant digits printed for the
    positive float [a] with decimal exponent [k]: at each length the two
    decimals next to [a] are read back.  Seventeen digits always suffice for
    binary64; where the digits run out the nearest decimal is taken. *)
Fixpoint shortest_decimal (fuel : nat) (n k : Z) (a : Q) : Q :=
  let scale := pow10 (k - n + 1) in
  let lo := Qfloor (a / scale) in
  let below := inject_Z lo * scale in
  let above := inject_Z (lo + 1) * scale in
  let nearest :=
    match (above - a) ?= (a - below) with
    | Lt => above
    | Gt => below
    | Eq => if Z.even lo then below else above
    end in
  match fuel with
  | O => nearest
  | S fuel' =>
      match Qeq_bool (rnd below) a, Qeq_bool (rnd above) a with
      | true, true => nearest
      | true, false => below
      | false, true => above
      | false, false => shortest_decimal fuel' (n + 1) k a
      end
  end.

(** The number denoted by [str(value)]. *)
Definition py_repr (value : Q) : Q :=
  match Qnum value with
  | Z0 => 0
  | Zpos _ => Qred (shortest_decimal 16 1 (decimal_exponent value) value)
  | Zneg _ =>
      Qred (- shortest_decimal 16 1 (decimal_exponent (- value)) (- value))
  end.

End Repr.

(** ** The code in rounded arithmetic *)

Module Float.

Section Code.

Context {F : float_format}.

(** [taxable_in_bracket] of [_calculate_progressive_tax]. *)
Definition taxable_in_bracket (tax_brackets : list bracket) (i : nat)
    (threshold remaining_income : Q) : outcome Q :=
  if (i <? length tax_brackets - 1)%nat then
    next ← py_index tax_brackets (S i);
    let next_threshold := next.1 in
    mret (py_min remaining_income (fsub next_threshold threshold))
  else mret remaining_income.

(** The [for] loop of [_calculate_progressive_tax], as in
    [ProgressiveTax.loop], each operation rounded. *)
Fixpoint loop (annual_income : Q) (tax_brackets : list bracket)
    (i : nat) (todo : list bracket) (st : loop_state) : outcome loop_state :=
  match todo with
  | [] => Returns st
  | (threshold, rate) :: todo' =>
      if Qlt_le_dec 0 (remaining_income st) then
        match taxable_in_bracket tax_brackets i threshold (remaining_income st) with
        | Returns taxable =>
            if Qlt_le_dec threshold annual_income then
              let tax_in_bracket :=
                fmul (py_min taxable (fsub annual_income threshold)) rate in
              loop annual_income tax_brackets (S i) todo'
                (LoopState (fadd (total_tax st) tax_in_bracket)
                           (fsub (remaining_income st) taxable))
            else loop annual_income tax_brackets (S i) todo' st
        | Raises e => Raises e
        end
      else Returns st
  end.

Definition _calculate_progressive_tax
    (annual_income : Q) (tax_brackets : list bracket) : outcome Q :=
  st ← loop annual_income tax_brackets 0 tax_brackets (LoopState 0 annual_income);
  mret (total_tax st).

(** [_round_decimal]:
    [float(Decimal(str(value)).quantize(Decimal('0.01'), rounding=ROUND_HALF_UP))].
    [Decimal(str(value))] is the printed decimal, exactly; [quantize] rounds
    it to hundredths and signals [InvalidOperation] when the coefficient of
    the result has more than the 28 digits of the default context; [float]
    takes the nearest float. *)
Definition _round_decimal (value : Q) : outcome Q :=
  let printed := py_repr value in
  let cents := quantize_half_up printed in
  if (10 ^ 28 <=? Z.abs cents)%Z then Raises InvalidOperation
  else Returns (rnd (cents # 100)).

End Code.

End Float.

(** The table of [__init__] as the interpreter holds it: whole numbers as
    they are, decimal literals as floats. *)
Definition float_tax_configurations {F : float_format} : tax_configurations :=
  {| cfg_US :=
       {| federal_income_tax_brackets :=
            [(0, literal 0.10); (9950, literal 0.12); (40525, literal 0.22);
             (86375, literal 0.24)];
          social_security := literal 0.062;
          medicare := literal 0.0145;
          unemployment := literal 0.006;
          state_variations := true |};
     cfg_IN :=
       {| in_income_tax_brackets :=
            [(0, literal 0.0); (250000, literal 0.05); (500000, literal 0.20);
             (1000000, literal 0.30)];
          pf := literal 0.12;
          esi := literal 0.0075;
          professional_tax := 200 |};
     cfg_UK :=
       {| uk_income_tax_brackets :=
            [(0, literal 0.0); (12570, literal 0.20); (50270, literal 0.40);
             (150000, literal 0.45)];
          ni_employee := literal 0.12;
          ni_employer := literal 0.138;
          pension_auto_enrollment := literal 0.05 |} |}.

(** ** [_calculate_deductions] *)

Module Deductions.

(** The fields of the [employee] dictionary that the function reads.  A
    missing key and a falsy value ([None], [0]) take the same branch of
    [if employee.get(...)]; [voluntary_deductions] is the inner dictionary in
    insertion order, empty when absent. *)
Record employee := Employee {
  health_insurance_deduction : option Q;
  loan_emi : option Q;
  voluntary_deductions : list (string * Q)
}.

(** Truth value of [employee.get(key)] for a numeric field. *)
Definition truthy (v : option Q) : bool :=
  match v with
  | Some q => negb (Qeq_bool q 0)
  | None => false
  end.

#[export] Instance Qlt_decision : RelDecision Qlt :=
  fun x y =>
    match Qlt_le_dec x y with
    | left Hlt => left Hlt
    | right Hle => right (Qle_not_lt _ _ Hle)
    end.

Section Code.

Context {F : float_format}.

(** [float(employee[key])], read only where [truthy] holds. *)
Definition float_of (v : option Q) : Q := rnd (default 0 v).

(** [sum(earnings.values())]; [earnings] is a dictionary in insertion
    order. *)
Definition gross_pay_of (earnings : list (string * Q)) : Q :=
  fsum (earnings.*2).

(** The expression [min(base * rate, cap)] of the provident-fund line,
    [min(gross_pay * tax_config['pf'], 1800)]. *)
Definition capped_rate_amount (base_amount rate cap : Q) : Q :=
  py_min (fmul base_amount rate) cap.

(** The [if region == 'US' ... elif 'IN' ... elif 'UK'] chain, adding to
    [deductions].  In each branch [tax_config] is the entry of that region. *)
Definition region_deductions (self : tax_configurations) (gross_pay : Q)
    (region : string) (deductions : gmap string Q) : outcome (gmap string Q) :=
  if String.eqb region "US" then
    let tax_config := cfg_US self in
    tax ← Float._calculate_progressive_tax (fmul gross_pay 12)
            (federal_income_tax_brackets tax_config);
    let federal_tax := fdiv tax 12 in
    let deductions := <["federal_income_tax" := federal_tax]> deductions in
    let ss_wage_base := 160200 in
    let ss_taxable := py_min (fmul gross_pay 12) ss_wage_base in
    let deductions :=
      <["social_security" :=
          fdiv (fmul ss_taxable (social_security tax_config)) 12]>
        deductions in
    let deductions :=
      <["medicare" := fmul gross_pay (medicare tax_config)]> deductions in
    mret (<["state_income_tax" := fmul gross_pay (literal 0.05)]> deductions)
  else if String.eqb region "IN" then
    let tax_config := cfg_IN self in
    let annual_salary := fmul gross_pay 12 in
    income_tax ← Float._calculate_progressive_tax annual_salary
                   (in_income_tax_brackets tax_config);
    let deductions := <["income_tax" := fdiv income_tax 12]> deductions in
    let pf_amount := capped_rate_amount gross_pay (pf tax_config) 1800 in
    let deductions := <["provident_fund" := pf_amount]> deductions in
    let deductions :=
      if Qlt_le_dec 250000 (fmul gross_pay 12) then deductions
      else <["esi" := fmul gross_pay (esi tax_config)]> deductions in
    mret (<["professional_tax" := professional_tax tax_config]> deductions)
  else if String.eqb region "UK" then
    let tax_config := cfg_UK self in
    let annual_salary := fmul gross_pay 12 in
    income_tax ← Float._calculate_progressive_tax annual_salary
                   (uk_income_tax_brackets tax_config);
    let deductions := <["income_tax" := fdiv income_tax 12]> deductions in
    let deductions :=
      <["national_insurance" := fmul gross_pay (ni_employee tax_config)]>
        deductions in
    mret (if Qlt_le_dec 10000 annual_salary then
            <["pension_contribution" :=
                fmul gross_pay (pension_auto_enrollment tax_config)]> deductions
          else deductions)
  else mret deductions.

(** [for deduction_name, amount in employee['voluntary_deductions'].items()]. *)
Definition add_voluntary (items : list (string * Q))
    (deductions : gmap string Q) : gmap string Q :=
  fold_left (fun acc item => <["voluntary_" +:+ item.1 := rnd item.2]> acc)
    items deductions.

(** The three employee-specific [if] blocks. *)
Definition employee_deductions (e : employee)
    (deductions : gmap string Q) : gmap string Q :=
  let deductions :=
    if truthy (health_insurance_deduction e) then
      <["health_insurance" := float_of (health_insurance_deduction e)]> deductions
    else deductions in
  let deductions :=
    if truthy (loan_emi e) then
      <["loan_emi" := float_of (loan_emi e)]> deductions
    else deductions in
  match voluntary_deductions e with
  | [] => deductions
  | items => add_voluntary items deductions
  end.

(** The dictionary [deductions] as it stands just before the [return]. *)
Definition raw_deductions (self : tax_configurations) (e : employee)
    (earnings : list (string * Q)) (region : string) : outcome (gmap string Q) :=
  let gross_pay := gross_pay_of earnings in
  deductions ← region_deductions self gross_pay region ∅;
  mret (employee_deductions e deductions).

(** What the comprehension of the [return] makes of one value: nothing
    unless [v > 0], else the value [_round_decimal] returns. *)
Definition rounded_entry (v : Q) : option Q :=
  if decide (0 < v) then
    match Float._round_decimal v with
    | Returns r => Some r
    | Raises _ => None
    end
  else None.

(** Whether [_round_decimal] returns on every value the comprehension
    passes to it. *)
Definition roundable (deductions : gmap string Q) : Prop :=
  map_Forall
    (fun (_ : string) (v : Q) =>
       0 < v -> Float._round_decimal v <> Raises InvalidOperation)
    deductions.

#[export] Instance roundable_dec (deductions : gmap string Q) :
  Decision (roundable deductions).
Proof.
  apply map_Forall_dec. intros k v.
  destruct (decide (0 < v)) as [Hpos | Hnonpos].
  - destruct (Float._round_decimal v) as [r | []] eqn:E;
      solve [left; intros _; discriminate | right; intros H; exact (H Hpos eq_refl)].
  - left. intros Hpos. contradiction.
Defined.

(** [{k: self._round_decimal(v) for k, v in deductions.items() if v > 0}]:
    the dictionary of the rounded positive values, unless some
    [_round_decimal] raises. *)
Definition round_positive (deductions : gmap string Q)
    : outcome (gmap string Q) :=
  if decide (roundable deductions)
  then Returns (omap rounded_entry deductions)
  else Raises InvalidOperation.

Definition _calculate_deductions (self : tax_configurations) (e : employee)
    (earnings : list (string * Q)) (region : string) : outcome (gmap string Q) :=
  deductions ← raw_deductions self e earnings region;
  round_positive deductions.

End Code.

End Deductions.

Export Deductions.

(** ** The bracket table of the specification *)

Module Spec.

(** Lower bounds strictly increasing along the table. *)
Fixpoint strictly_increasing (brackets : list bracket) : Prop :=
  match brackets with
  | [] => True
  | (t_i, _) :: rest =>
      match rest with
      | [] => True
      | (t_next, _) :: _ => t_i < t_next /\ strictly_increasing rest
      end
  end.

(** Non-empty, first lower bound [0], lower bounds strictly increasing. *)
Definition valid_table (brackets : list bracket) : Prop :=
  match brackets with
  | [] => False
  | (t_0, _) :: _ => t_0 == 0 /\ strictly_increasing brackets
  end.


(** A table is malformed when it is empty, its first lower bound is not [0],
    or its lower bounds are not strictly increasing. *)
Definition malformed (brackets : list bracket) : Prop := ~ valid_table brackets.

(** Upper end of a bracket: the next lower bound, or [None] for +infinity. *)
Definition next_bound (rest : list bracket) : option Q := fst <$> head rest.

(** [min(base_amount, t_next)] with [t_next] possibly +infinity. *)
Definition min_upto (base_amount : Q) (t_next : option Q) : Q :=
  match t_next with
  | Some t => Qmin base_amount t
  | None => base_amount
  end.

(** Written from the specification: the sum over the brackets [i] with
    [base_amount > t_i] of [(min(base_amount, t_{i+1}) - t_i) * rate_i]. *)
Fixpoint bracket_sum (base_amount : Q) (brackets : list bracket) : Q :=
  match brackets with
  | [] => 0
  | (t_i, rate_i) :: rest =>
      (if Qlt_le_dec t_i base_amount
       then (min_upto base_amount (next_bound rest) - t_i) * rate_i
       else 0)
      + bracket_sum base_amount rest
  end.

End Spec.

(** ** Names used to state the results on [_calculate_deductions] *)

(** Key under which a region stores its monthly income tax. *)
Definition income_tax_key (region : string) : string :=
  if String.eqb region "US" then "federal_income_tax" else "income_tax".

(** The annual bracket table a region passes to the progressive calculation. *)
Definition annual_brackets (self : tax_configurations) (region : string)
    : list bracket :=
  if String.eqb region "US" then federal_income_tax_brackets (cfg_US self)
  else if String.eqb region "IN" then in_income_tax_brackets (cfg_IN self)
  else uk_income_tax_brackets (cfg_UK self).

(** Keys that no employee-specific block writes: neither [health_insurance]
    nor [loan_emi], and not of the form [voluntary_...]. *)
Definition region_key (k : string) : Prop :=
  k <> "health_insurance"%string /\ k <> "loan_emi"%string
  /\ forall name : string, ("voluntary_" +:+ name)%string <> k.

(** ** The loop read along the remaining brackets

    [walk] is [loop] with the index dropped: [i < len(tax_brackets) - 1]
    holds exactly when a bracket follows the current one, and
    [tax_brackets[i + 1]] is then the head of the remaining brackets, so no
    [IndexError] arises (lemma [loop_walk]). *)

Fixpoint walk (annual_income : Q) (todo : list bracket) (st : loop_state)
    : loop_state :=
  match todo with
  | [] => st
  | (threshold, rate) :: todo' =>
      if Qlt_le_dec 0 (remaining_income st) then
        let taxable :=
          match todo' with
          | (next_threshold, _) :: _ =>
              py_min (remaining_income st) (next_threshold - threshold)
          | [] => remaining_income st
          end in
        if Qlt_le_dec threshold annual_income then
          walk annual_income todo'
            (LoopState
               (total_tax st + py_min taxable (annual_income - threshold) * rate)
               (remaining_income st - taxable))
        else walk annual_income todo' st
      else st
  end.

(** The value the call returns (lemma [calculate_progressive_tax_returns]). *)
Definition progressive_tax_value (annual_income : Q)
    (tax_brackets : list bracket) : Q :=
  total_tax (walk annual_income tax_brackets (LoopState 0 annual_income)).

(** The relation between [remaining_income] and the next lower bound that the
    loop keeps on a valid table: either nothing has been cut off beyond the
    bound, or the income is used up and lies at or below the bound. *)
Definition remaining_inv (annual_income : Q) (todo : list bracket)
    (remaining : Q) : Prop :=
  match todo with
  | [] => True
  | (t, _) :: _ =>
      remaining == annual_income - t \/ (remaining <= 0 /\ annual_income <= t)
  end.

(** ** The rounded loop read along the remaining brackets *)

Section FloatWalk.

Context {F : float_format}.

(** [Float.loop] with the index dropped, as [walk] is [loop]. *)
Fixpoint float_walk (annual_income : Q) (todo : list bracket) (st : loop_state)
    : loop_state :=
  match todo with
  | [] => st
  | (threshold, rate) :: todo' =>
      if Qlt_le_dec 0 (remaining_income st) then
        let taxable :=
          match todo' with
          | (next_threshold, _) :: _ =>
              py_min (remaining_income st) (fsub next_threshold threshold)
          | [] => remaining_income st
          end in
        if Qlt_le_dec threshold annual_income then
          float_walk annual_income todo'
            (LoopState
               (fadd (total_tax st)
                  (fmul (py_min taxable (fsub annual_income threshold)) rate))
               (fsub (remaining_income st) taxable))
        else float_walk annual_income todo' st
      else st
  end.

(** The value the rounded call returns
    (lemma [float_calculate_progressive_tax_returns]). *)
Definition float_tax_value (annual_income : Q) (tax_brackets : list bracket) : Q :=
  total_tax (float_walk annual_income tax_brackets (LoopState 0 annual_income)).

(** Written from the specification, in the arithmetic of the code: the sum,
    accumulated in the order of the table from [acc], over the brackets [i]
    with [base_amount > t_i] of [(min(base_amount, t_{i+1}) - t_i) * rate_i]. *)
Fixpoint float_sum_from (acc base_amount : Q) (brackets : list bracket) : Q :=
  match brackets with
  | [] => acc
  | (t_i, rate_i) :: rest =>
      float_sum_from
        (if Qlt_le_dec t_i base_amount
         then fadd acc
                (fmul (fsub (Spec.min_upto base_amount (Spec.next_bound rest)) t_i)
                      rate_i)
         else acc)
        base_amount rest
  end.

Definition float_bracket_sum (base_amount : Q) (brackets : list bracket) : Q :=
  float_sum_from 0 base_amount brackets.

(** No subtraction of the walk rounds: the difference of every two
    consecutive lower bounds, and of the base amount and every lower bound
    below it, is a float. *)
Fixpoint exact_differences (base_amount : Q) (brackets : list bracket) : Prop :=
  match brackets with
  | [] => True
  | (t_i, _) :: rest =>
      (t_i < base_amount -> rnd (base_amount - t_i) == base_amount - t_i)
      /\ match rest with
         | (t_next, _) :: _ => rnd (t_next - t_i) == t_next - t_i
         | [] => True
         end
      /\ exact_differences base_amount rest
  end.

End FloatWalk.

(** ** Amounts of cents that [str] prints back

    [float(d)] of a decimal [d] of two places is printed by [str] as [d]
    again as long as [d] is short enough for the format.
    [prints_its_cents c] tests this for [c] cents in binary64, and
    [cents_upto n] lists the amounts from [0] to [n] cents. *)



(** Closed comparisons between rational constants. *)
Ltac q_closed := unfold Qle, Qlt, Qeq; cbn; lia.

(** * Theorems *)

(** ** The call never raises: [loop] is [walk] *)

Section LoopAsWalk.

Variable annual_income : Q.

Lemma taxable_in_bracket_returns (done todo' : list bracket)
    (threshold rate remaining : Q) :
  taxable_in_bracket (done ++ (threshold, rate) :: todo') (length done)
    threshold remaining
  = Returns match todo' with
            | (next_threshold, _) :: _ =>
                py_min remaining (next_threshold - threshold)
            | [] => remaining
            end.
Proof.
  unfold taxable_in_bracket, py_index.
  rewrite length_app. cbn [length].
  rewrite lookup_app_r by lia.
  replace (S (length done) - length done)%nat with 1%nat by lia.
  destruct todo' as [| [t' r'] todo'']; cbn [length].
  - replace (length done <? length done + 1 - 1)%nat
      with false by (symmetry; apply Nat.ltb_ge; lia).
    reflexivity.
  - replace (length done <? length done + S (S (length todo'')) - 1)%nat
      with true by (symmetry; apply Nat.ltb_lt; lia).
    reflexivity.
Qed.

Lemma loop_walk (done todo : list bracket) (st : loop_state) :
  loop annual_income (done ++ todo) (length done) todo st
  = Returns (walk annual_income todo st).
Proof.
  revert done st.
  induction todo as [| [threshold rate] todo' IH]; intros done st; [reflexivity |].
  specialize (IH (done ++ [(threshold, rate)])).
  rewrite <- app_assoc, length_app in IH. cbn [app length] in IH.
  replace (length done + 1)%nat with (S (length done)) in IH by lia.
  cbn [loop walk].
  destruct (Qlt_le_dec 0 (remaining_income st)); [| reflexivity].
  rewrite taxable_in_bracket_returns. cbv zeta.
  destruct (Qlt_le_dec threshold annual_income); apply IH.
Qed.

Lemma calculate_progressive_tax_returns (tax_brackets : list bracket) :
  _calculate_progressive_tax annual_income tax_brackets
  = Returns (progressive_tax_value annual_income tax_brackets).
Proof.
  unfold _calculate_progressive_tax, progressive_tax_value.
  now rewrite (loop_walk [] tax_brackets).
Qed.

(** A non-positive income leaves the loop at once, whatever the table. *)
Lemma progressive_tax_value_nonpos (tax_brackets : list bracket) :
  annual_income <= 0 -> progressive_tax_value annual_income tax_brackets = 0.
Proof.
  intros Hle. unfold progressive_tax_value.
  destruct tax_brackets as [| [t r] rest]; [reflexivity |].
  cbn [walk remaining_income].
  destruct (Qlt_le_dec 0 annual_income) as [Hlt | _]; [lra | reflexivity].
Qed.

End LoopAsWalk.

(** ** The walk on a valid table is the bracket sum of the specification *)

Section BracketWalk.

Import Spec.

Variable x : Q.



Lemma Qmin_cases (a b : Q) :
  (b < a /\ Qmin a b == b) \/ (a <= b /\ Qmin a b == a).
Proof.
  destruct (Qlt_le_dec b a) as [Hlt | Hle].
  - left. split; [exact Hlt | apply Q.min_r; lra].
  - right. split; [exact Hle | apply Q.min_l; exact Hle].
Qed.

Lemma strictly_increasing_tail (b : bracket) (rest : list bracket) :
  strictly_increasing (b :: rest) -> strictly_increasing rest.
Proof.
  destruct b as [t r]. destruct rest as [| [t' r'] rest']; cbn; tauto.
Qed.



End BracketWalk.

(** ** Consequences for valid tables: equality with the sum, monotonicity *)

Section Monotone.

Import Spec.

Lemma valid_table_inv (x : Q) (brackets : list bracket) :
  valid_table brackets ->
  strictly_increasing brackets
  /\ remaining_inv x brackets (remaining_income (LoopState 0 x)).
Proof.
  destruct brackets as [| [t0 r0] rest]; [intros [] |].
  intros [H0 Hinc]. split; [exact Hinc |].
  cbn. left. lra.
Qed.





End Monotone.

(** ** [_round_decimal]: nearest hundredth, ties away from zero *)

Section Rounding.

Lemma hundredths (c : Z) : c # 100 == inject_Z c * (1 # 100).
Proof. unfold Qeq. cbn. lia. Qed.

(** The magnitude chosen by [quantize]: the integer [m] with
    [m <= |value| * 100 + 1/2 < m + 1]. *)
Lemma magnitude_bounds (value : Q) :
  let m := Qfloor (Qabs value * 100 + (1 # 2)) in
  inject_Z m <= Qabs value * 100 + (1 # 2)
  /\ Qabs value * 100 + (1 # 2) < inject_Z m + 1
  /\ (0 <= m)%Z.
Proof.
  intros m. subst m.
  pose proof (Qfloor_le (Qabs value * 100 + (1 # 2))) as Hlo.
  pose proof (Qlt_floor (Qabs value * 100 + (1 # 2))) as Hhi.
  rewrite inject_Z_plus in Hhi.
  repeat split; [exact Hlo | exact Hhi |].
  change 0%Z with (Qfloor 0).
  apply Qfloor_resp_le.
  pose proof (Qabs_nonneg value). lra.
Qed.

Lemma round_decimal_neg (value : Q) :
  value < 0 ->
  _round_decimal value
  == - (inject_Z (Qfloor (Qabs value * 100 + (1 # 2))) * (1 # 100)).
Proof.
  intros Hneg. unfold _round_decimal, quantize_half_up.
  destruct (Qlt_le_dec value 0) as [_ | Hge]; [| lra].
  rewrite hundredths, inject_Z_opp. lra.
Qed.

Lemma round_decimal_nonneg (value : Q) :
  0 <= value ->
  _round_decimal value
  == inject_Z (Qfloor (Qabs value * 100 + (1 # 2))) * (1 # 100).
Proof.
  intros Hpos. unfold _round_decimal, quantize_half_up.
  destruct (Qlt_le_dec value 0) as [Hlt | _]; [lra |].
  apply hundredths.
Qed.

Lemma round_decimal_error (value : Q) :
  Qabs (_round_decimal value - value) <= 1 # 200.
Proof.
  destruct (magnitude_bounds value) as (Hlo & Hhi & _).
  apply Qabs_Qle_condition.
  destruct (Qlt_le_dec value 0) as [Hneg | Hpos].
  - rewrite (round_decimal_neg value Hneg).
    pose proof (Qabs_neg value ltac:(lra)) as Ha. lra.
  - rewrite (round_decimal_nonneg value Hpos).
    pose proof (Qabs_pos value Hpos) as Ha. lra.
Qed.

Lemma round_decimal_tie_away (value : Q) :
  Qabs (_round_decimal value - value) == 1 # 200 ->
  Qabs value < Qabs (_round_decimal value).
Proof.
  destruct (magnitude_bounds value) as (Hlo & Hhi & Hm).
  assert (Hm' : 0 <= inject_Z (Qfloor (Qabs value * 100 + (1 # 2))))
    by (change 0 with (inject_Z 0); rewrite <- Zle_Qle; exact Hm).
  destruct (Qlt_le_dec value 0) as [Hneg | Hpos].
  - rewrite (round_decimal_neg value Hneg).
    pose proof (Qabs_neg value ltac:(lra)) as Ha.
    set (m := inject_Z _) in *.
    intros Htie.
    pose proof (Qabs_neg (- (m * (1 # 100))) ltac:(lra)) as Hr.
    destruct (Qlt_le_dec (- (m * (1 # 100)) - value) 0) as [Hd | Hd].
    + pose proof (Qabs_neg _ (Qlt_le_weak _ _ Hd)) as Hab. lra.
    + pose proof (Qabs_pos _ Hd) as Hab. lra.
  - rewrite (round_decimal_nonneg value Hpos).
    pose proof (Qabs_pos value Hpos) as Ha.
    set (m := inject_Z _) in *.
    intros Htie.
    pose proof (Qabs_pos (m * (1 # 100)) ltac:(lra)) as Hr.
    destruct (Qlt_le_dec (m * (1 # 100) - value) 0) as [Hd | Hd].
    + pose proof (Qabs_neg _ (Qlt_le_weak _ _ Hd)) as Hab. lra.
    + pose proof (Qabs_pos _ Hd) as Hab. lra.
Qed.


Lemma quantize_mono (x y : Q) :
  x <= y -> (quantize_half_up x <= quantize_half_up y)%Z.
Proof.
  intros Hxy. unfold quantize_half_up.
  destruct (magnitude_bounds x) as (_ & _ & Hmx).
  destruct (magnitude_bounds y) as (_ & _ & Hmy).
  destruct (Qlt_le_dec x 0) as [Hx | Hx]; destruct (Qlt_le_dec y 0) as [Hy | Hy].
  - apply Z.opp_le_mono. rewrite !Z.opp_involutive.
    apply Qfloor_resp_le.
    pose proof (Qabs_neg x ltac:(lra)). pose proof (Qabs_neg y ltac:(lra)). lra.
  - lia.
  - lra.
  - apply Qfloor_resp_le.
    pose proof (Qabs_pos x Hx). pose proof (Qabs_pos y Hy). lra.
Qed.

Lemma round_decimal_mono (x y : Q) :
  x <= y -> _round_decimal x <= _round_decimal y.
Proof.
  intros Hxy. pose proof (quantize_mono x y Hxy) as H.
  unfold _round_decimal, Qle. cbn. lia.
Qed.

End Rounding.

(** ** The rounded call never raises: [Float.loop] is [float_walk] *)

Section FloatLoopAsWalk.

Context {F : float_format}.

Variable annual_income : Q.

Lemma float_taxable_in_bracket_returns (done todo' : list bracket)
    (threshold rate remaining : Q) :
  Float.taxable_in_bracket (done ++ (threshold, rate) :: todo') (length done)
    threshold remaining
  = Returns match todo' with
            | (next_threshold, _) :: _ =>
                py_min remaining (fsub next_threshold threshold)
            | [] => remaining
            end.
Proof.
  unfold Float.taxable_in_bracket, py_index.
  rewrite length_app. cbn [length].
  rewrite lookup_app_r by lia.
  replace (S (length done) - length done)%nat with 1%nat by lia.
  destruct todo' as [| [t' r'] todo'']; cbn [length].
  - replace (length done <? length done + 1 - 1)%nat
      with false by (symmetry; apply Nat.ltb_ge; lia).
    reflexivity.
  - replace (length done <? length done + S (S (length todo'')) - 1)%nat
      with true by (symmetry; apply Nat.ltb_lt; lia).
    reflexivity.
Qed.

Lemma float_loop_walk (done todo : list bracket) (st : loop_state) :
  Float.loop annual_income (done ++ todo) (length done) todo st
  = Returns (float_walk annual_income todo st).
Proof.
  revert done st.
  induction todo as [| [threshold rate] todo' IH]; intros done st; [reflexivity |].
  specialize (IH (done ++ [(threshold, rate)])).
  rewrite <- app_assoc, length_app in IH. cbn [app length] in IH.
  replace (length done + 1)%nat with (S (length done)) in IH by lia.
  cbn [Float.loop float_walk].
  destruct (Qlt_le_dec 0 (remaining_income st)); [| reflexivity].
  rewrite float_taxable_in_bracket_returns. cbv zeta.
  destruct (Qlt_le_dec threshold annual_income); apply IH.
Qed.

Lemma float_calculate_progressive_tax_returns (tax_brackets : list bracket) :
  Float._calculate_progressive_tax annual_income tax_brackets
  = Returns (float_tax_value annual_income tax_brackets).
Proof.
  unfold Float._calculate_progressive_tax, float_tax_value.
  now rewrite (float_loop_walk [] tax_brackets).
Qed.

End FloatLoopAsWalk.

(** Without rounding the two embeddings of the walk are one. *)
Lemma exact_arithmetic_walk (annual_income : Q) (todo : list bracket)
    (st : loop_state) :
  @float_walk exact_arithmetic annual_income todo st = walk annual_income todo st.
Proof.
  revert st. induction todo as [| [t r] todo' IH]; intros st; [reflexivity |].
  cbn [float_walk walk].
  destruct (Qlt_le_dec 0 (remaining_income st)); [| reflexivity].
  cbv zeta. destruct (Qlt_le_dec t annual_income); apply IH.
Qed.

Lemma exact_arithmetic_call (annual_income : Q) (tax_brackets : list bracket) :
  @Float._calculate_progressive_tax exact_arithmetic annual_income tax_brackets
  = _calculate_progressive_tax annual_income tax_brackets.
Proof.
  rewrite float_calculate_progressive_tax_returns, calculate_progressive_tax_returns.
  unfold float_tax_value, progressive_tax_value.
  now rewrite exact_arithmetic_walk.
Qed.

(** ** The rounded walk is the rounded sum where no subtraction rounds *)

Section FloatBracketWalk.

Import Spec.

Context {F : float_format} {L : rounding_laws F}.

Variable x : Q.

#[local] Instance rnd_Proper : Proper (Qeq ==> Qeq) rnd.
Proof. intros a b Hab. apply rnd_proper. exact Hab. Qed.

#[local] Instance fadd_Proper : Proper (Qeq ==> Qeq ==> Qeq) fadd.
Proof. intros a b Hab c d Hcd. unfold fadd. now rewrite Hab, Hcd. Qed.

#[local] Instance fsub_Proper : Proper (Qeq ==> Qeq ==> Qeq) fsub.
Proof. intros a b Hab c d Hcd. unfold fsub. now rewrite Hab, Hcd. Qed.

#[local] Instance fmul_Proper : Proper (Qeq ==> Qeq ==> Qeq) fmul.
Proof. intros a b Hab c d Hcd. unfold fmul. now rewrite Hab, Hcd. Qed.

Lemma float_sum_from_proper (acc acc' : Q) (brackets : list bracket) :
  acc == acc' ->
  float_sum_from acc x brackets == float_sum_from acc' x brackets.
Proof.
  revert acc acc'.
  induction brackets as [| [t r] rest IH]; intros acc acc' Hacc; [exact Hacc |].
  cbn [float_sum_from]. apply IH.
  destruct (Qlt_le_dec t x); [now rewrite Hacc | exact Hacc].
Qed.

Lemma float_sum_from_below (acc : Q) (brackets : list bracket) :
  strictly_increasing brackets ->
  match brackets with
  | [] => True
  | (t, _) :: _ => x <= t
  end ->
  float_sum_from acc x brackets = acc.
Proof.
  revert acc.
  induction brackets as [| [t r] rest IH]; intros acc Hinc Hle; [reflexivity |].
  cbn [float_sum_from].
  destruct (Qlt_le_dec t x) as [Hlt | _]; [lra |].
  apply IH; [exact (strictly_increasing_tail _ _ Hinc) |].
  destruct rest as [| [t' r'] rest']; [exact I |].
  cbn in Hinc. lra.
Qed.

Lemma py_min_eq (a b c : Q) : a == c -> b == c -> py_min a b == c.
Proof. intros Ha Hb. unfold py_min. destruct (Qlt_le_dec b a); assumption. Qed.

Lemma py_min_left (a b c : Q) : a == c -> c <= b -> py_min a b == c.
Proof.
  intros Ha Hb. unfold py_min. destruct (Qlt_le_dec b a) as [Hlt | _]; lra.
Qed.

Lemma py_min_right (a b c : Q) : b == c -> c <= a -> py_min a b == c.
Proof.
  intros Hb Ha. unfold py_min. destruct (Qlt_le_dec b a) as [_ | Hle]; lra.
Qed.

Lemma float_walk_bracket_sum (todo : list bracket) :
  strictly_increasing todo ->
  exact_differences x todo ->
  forall st : loop_state,
    remaining_inv x todo (remaining_income st) ->
    total_tax (float_walk x todo st) == float_sum_from (total_tax st) x todo.
Proof.
  induction todo as [| [t r] todo' IH]; intros Hinc Hexact st Hinv.
  - reflexivity.
  - pose proof (strictly_increasing_tail _ _ Hinc) as Hinc'.
    destruct Hexact as (Hxt & Hnext & Hexact').
    cbn [float_walk].
    destruct (Qlt_le_dec 0 (remaining_income st)) as [Hpos | Hnonpos].
    + assert (Hrem : remaining_income st == x - t)
        by (destruct Hinv as [H | [H _]]; [exact H | lra]).
      destruct (Qlt_le_dec t x) as [Hlt | Hge]; [| lra].
      specialize (Hxt Hlt).
      assert (Hsub : fsub x t == x - t) by exact Hxt.
      cbn [float_sum_from].
      destruct (Qlt_le_dec t x) as [_ | Hge]; [| lra].
      destruct todo' as [| [t' r'] todo''].
      * cbn [float_walk total_tax float_sum_from next_bound head fmap
             option_fmap option_map min_upto].
        assert (E : py_min (remaining_income st) (fsub x t) == fsub x t)
          by (apply py_min_eq; [lra | reflexivity]).
        now rewrite E.
      * assert (Htt' : t < t') by (cbn in Hinc; tauto).
        assert (Hgap : fsub t' t == t' - t) by exact Hnext.
        cbv zeta. rewrite IH; [| exact Hinc' | exact Hexact' |].
        -- cbn [total_tax next_bound head fmap option_fmap option_map
                min_upto fst].
           apply float_sum_from_proper.
           assert (E : py_min (py_min (remaining_income st) (fsub t' t)) (fsub x t)
                       == fsub (Qmin x t') t).
           { destruct (Qmin_cases x t') as [[H3 E3] | [H3 E3]]; rewrite E3.
             - (* t' < x *)
               apply py_min_left; [| lra].
               apply py_min_right; [reflexivity | lra].
             - (* x <= t' *)
               apply py_min_eq; [| reflexivity].
               apply py_min_left; lra. }
           now rewrite E.
        -- cbn [remaining_inv remaining_income].
           destruct (Qlt_le_dec t' x) as [Hlt' | Hge'].
           ++ left.
              assert (E : py_min (remaining_income st) (fsub t' t) == t' - t)
                by (apply py_min_right; lra).
              unfold fsub at 1. rewrite E, Hrem.
              destruct Hexact' as (Hxt' & _).
              rewrite <- (Hxt' Hlt'). apply rnd_proper. ring.
           ++ right.
              assert (E : py_min (remaining_income st) (fsub t' t)
                          == remaining_income st)
                by (apply py_min_left; [reflexivity | lra]).
              unfold fsub at 1. rewrite E.
              assert (E0 : remaining_income st - remaining_income st == 0) by ring.
              rewrite E0, rnd_zero. split; lra.
    + rewrite float_sum_from_below; [reflexivity | exact Hinc |].
      destruct Hinv as [H | [_ H]]; lra.
Qed.

Lemma float_tax_value_bracket_sum (brackets : list bracket) :
  valid_table brackets ->
  exact_differences x brackets ->
  float_tax_value x brackets == float_bracket_sum x brackets.
Proof.
  intros Hvalid Hexact.
  destruct (valid_table_inv x brackets Hvalid) as [Hinc Hinv].
  unfold float_tax_value, float_bracket_sum.
  now rewrite (float_walk_bracket_sum brackets Hinc Hexact _ Hinv).
Qed.

End FloatBracketWalk.

(** ** The two formats keep the laws *)

Lemma binary64_laws : rounding_laws binary64.
Proof.
  split.
  - intros x y Hxy. cbn. unfold rnd64.
    rewrite (Qred_complete x y Hxy). reflexivity.
  - reflexivity.
Qed.

Lemma exact_arithmetic_laws : rounding_laws exact_arithmetic.
Proof. split; [intros x y Hxy; exact Hxy | reflexivity]. Qed.

(** ** [_calculate_deductions]: what each step does to a given key *)

Section DeductionEntries.

Context {F : float_format}.

Lemma region_key_federal_income_tax : region_key "federal_income_tax".
Proof. repeat split; discriminate. Qed.

Lemma region_key_income_tax : region_key "income_tax".
Proof. repeat split; discriminate. Qed.


Lemma add_voluntary_lookup (k : string) (items : list (string * Q))
    (deductions : gmap string Q) :
  (forall name : string, ("voluntary_" +:+ name)%string <> k) ->
  add_voluntary items deductions !! k = deductions !! k.
Proof.
  intros Hk. unfold add_voluntary. revert deductions.
  induction items as [| [name amount] items IH]; intros deductions; [reflexivity |].
  cbn [fold_left]. rewrite IH. apply lookup_insert_ne. apply Hk.
Qed.

Lemma employee_deductions_lookup (k : string) (e : employee)
    (deductions : gmap string Q) :
  region_key k ->
  employee_deductions e deductions !! k = deductions !! k.
Proof.
  intros (Hh & Hl & Hv). unfold employee_deductions. cbv zeta.
  assert (Hvol : forall d : gmap string Q,
    match voluntary_deductions e with
    | [] => d
    | items => add_voluntary items d
    end !! k = d !! k).
  { intros d. destruct (voluntary_deductions e); [reflexivity |].
    apply add_voluntary_lookup. exact Hv. }
  rewrite Hvol.
  destruct (truthy (loan_emi e)); destruct (truthy (health_insurance_deduction e));
    rewrite ?lookup_insert_ne by congruence; reflexivity.
Qed.

(** The comprehension returns exactly when every rounding it asks for
    returns, and raises [InvalidOperation] otherwise. *)
Lemma round_positive_outcome (deductions : gmap string Q) :
  (roundable deductions
   /\ round_positive deductions = Returns (omap rounded_entry deductions))
  \/ (~ roundable deductions
      /\ round_positive deductions = Raises InvalidOperation).
Proof.
  unfold round_positive.
  destruct (decide (roundable deductions)) as [H | H]; [left | right]; auto.
Qed.

Lemma round_positive_lookup (k : string) (deductions final : gmap string Q) :
  round_positive deductions = Returns final ->
  final !! k = deductions !! k ≫= rounded_entry.
Proof.
  destruct (round_positive_outcome deductions) as [[_ E] | [_ E]];
    rewrite E; [| discriminate].
  intros [= <-]. apply lookup_omap.
Qed.

(** A value the comprehension kept went through [_round_decimal]. *)
Lemma rounded_entry_Some (amount v : Q) :
  rounded_entry amount = Some v ->
  0 < amount /\ Float._round_decimal amount = Returns v.
Proof.
  unfold rounded_entry.
  destruct (decide (0 < amount)) as [Hpos | _]; [| discriminate].
  destruct (Float._round_decimal amount) as [r | err]; [| discriminate].
  intros [= <-]. split; [exact Hpos | reflexivity].
Qed.

(** The income-tax entry each region branch writes. *)
Lemma region_deductions_income_tax (self : tax_configurations) (gross_pay : Q)
    (region : string) :
  region = "US"%string \/ region = "IN"%string \/ region = "UK"%string ->
  exists deductions : gmap string Q,
    region_deductions self gross_pay region ∅ = Returns deductions
    /\ deductions !! income_tax_key region
       = Some (fdiv (float_tax_value (fmul gross_pay 12)
                       (annual_brackets self region)) 12).
Proof.
  intros [-> | [-> | ->]]; unfold region_deductions, income_tax_key, annual_brackets;
    cbn [String.eqb Ascii.eqb Bool.eqb];
    rewrite float_calculate_progressive_tax_returns;
    cbn [mbind outcome_bind mret outcome_ret];
    eexists; (split; [reflexivity |]).
  - now rewrite !lookup_insert_ne, lookup_insert_eq by discriminate.
  - rewrite lookup_insert_ne by discriminate.
    destruct (Qlt_le_dec 250000 (fmul gross_pay 12));
      now rewrite !lookup_insert_ne, lookup_insert_eq by discriminate.
  - destruct (Qlt_le_dec 10000 (fmul gross_pay 12));
      now rewrite !lookup_insert_ne, lookup_insert_eq by discriminate.
Qed.


(** The region branches never raise. *)
Lemma region_deductions_returns (self : tax_configurations) (gross_pay : Q)
    (region : string) (deductions : gmap string Q) :
  exists result : gmap string Q,
    region_deductions self gross_pay region deductions = Returns result.
Proof.
  unfold region_deductions.
  destruct (String.eqb region "US"); [| destruct (String.eqb region "IN");
    [| destruct (String.eqb region "UK")]];
    rewrite ?float_calculate_progressive_tax_returns;
    cbn [mbind outcome_bind mret outcome_ret]; eexists; reflexivity.
Qed.

(** The dictionary before the [return] always exists; the call returns its
    rounded positive entries exactly when all of them can be rounded, and
    raises [InvalidOperation] otherwise. *)
Lemma calculate_deductions_outcome (self : tax_configurations) (e : employee)
    (earnings : list (string * Q)) (region : string) :
  exists raw : gmap string Q,
    raw_deductions self e earnings region = Returns raw
    /\ ((roundable raw
         /\ _calculate_deductions self e earnings region
            = Returns (omap rounded_entry raw))
        \/ (~ roundable raw
            /\ _calculate_deductions self e earnings region
               = Raises InvalidOperation)).
Proof.
  unfold _calculate_deductions, raw_deductions.
  destruct (region_deductions_returns self (gross_pay_of earnings) region ∅)
    as [d Hd].
  rewrite Hd. cbn [mbind outcome_bind mret outcome_ret].
  eexists. split; [reflexivity |]. apply round_positive_outcome.
Qed.

Lemma calculate_deductions_of_raw (self : tax_configurations) (e : employee)
    (earnings : list (string * Q)) (region : string) (raw : gmap string Q) :
  raw_deductions self e earnings region = Returns raw ->
  (roundable raw
   /\ _calculate_deductions self e earnings region
      = Returns (omap rounded_entry raw))
  \/ (~ roundable raw
      /\ _calculate_deductions self e earnings region = Raises InvalidOperation).
Proof.
  intros Hraw. unfold _calculate_deductions. rewrite Hraw.
  cbn [mbind outcome_bind]. apply round_positive_outcome.
Qed.

(** From an entry of a region branch to the dictionary returned. *)
Lemma calculate_deductions_entry (self : tax_configurations) (e : employee)
    (earnings : list (string * Q)) (region k : string)
    (deductions : gmap string Q) (v : Q) :
  region_key k ->
  region_deductions self (gross_pay_of earnings) region ∅ = Returns deductions ->
  deductions !! k = Some v ->
  exists raw : gmap string Q,
    raw_deductions self e earnings region = Returns raw
    /\ raw !! k = Some v
    /\ forall final : gmap string Q,
         _calculate_deductions self e earnings region = Returns final ->
         final !! k = rounded_entry v.
Proof.
  intros Hk Hregion Hv.
  unfold _calculate_deductions, raw_deductions.
  rewrite Hregion. cbn [mbind outcome_bind mret outcome_ret].
  eexists. split; [reflexivity |].
  assert (Hraw : employee_deductions e deductions !! k = Some v)
    by now rewrite employee_deductions_lookup.
  split; [exact Hraw |].
  intros final Hfinal.
  rewrite (round_positive_lookup k _ _ Hfinal), Hraw. reflexivity.
Qed.

(** Every value returned is what [_round_decimal] returned, once, on a
    positive entry of the dictionary built before the [return]. *)
Lemma calculate_deductions_rounded (self : tax_configurations) (e : employee)
    (earnings : list (string * Q)) (region k : string)
    (final : gmap string Q) (v : Q) :
  _calculate_deductions self e earnings region = Returns final ->
  final !! k = Some v ->
  exists (raw : gmap string Q) (amount : Q),
    raw_deductions self e earnings region = Returns raw
    /\ raw !! k = Some amount /\ 0 < amount
    /\ Float._round_decimal amount = Returns v.
Proof.
  unfold _calculate_deductions.
  destruct (raw_deductions self e earnings region) as [raw | err];
    cbn [mbind outcome_bind mret outcome_ret]; [| discriminate].
  intros Hfinal Hv.
  rewrite (round_positive_lookup k _ _ Hfinal) in Hv.
  destruct (raw !! k) as [amount |] eqn:Hraw; [| discriminate].
  cbn in Hv. apply rounded_entry_Some in Hv as [Hpos Hround].
  exists raw, amount. repeat split; assumption.
Qed.

End DeductionEntries.

(** ** [Float._round_decimal]: the cases of the call *)


Section FloatRounding.

Context {F : float_format}.

Lemma float_round_decimal_cases (value : Q) :
  let cents := quantize_half_up (py_repr value) in
  ((Z.abs cents < 10 ^ 28)%Z
   /\ Float._round_decimal value = Returns (rnd (cents # 100)))
  \/ ((10 ^ 28 <= Z.abs cents)%Z
      /\ Float._round_decimal value = Raises InvalidOperation).
Proof.
  intros cents. unfold Float._round_decimal. fold cents.
  destruct (10 ^ 28 <=? Z.abs cents)%Z eqn:E.
  - right. apply Z.leb_le in E. auto.
  - left. apply Z.leb_gt in E. auto.
Qed.


End FloatRounding.

(** ** In binary64 every amount from 0.00 to 50.00 is printed back *)



(** * The claims *)

(** C1 fails on the code, whose arithmetic rounds.  On the valid table
    [[(0, 1), (0.1, 1), (0.3, 1), (0.7, 1)]] the amount 0.41 owes
    0.4099999999999999, which is neither the sum of the claim taken exactly
    (0.41) nor that sum evaluated in the arithmetic of the code (0.41 as
    well): the walk subtracts the slices from [remaining_income] one after
    the other, and these subtractions round. *)
Lemma rounded_walk_differs_from_sum :
  0 <= rnd64 0.41
  /\ Spec.valid_table [(0, 1); (rnd64 0.1, 1); (rnd64 0.3, 1); (rnd64 0.7, 1)]
  /\ exists owed : Q,
       @Float._calculate_progressive_tax binary64 (rnd64 0.41)
         [(0, 1); (rnd64 0.1, 1); (rnd64 0.3, 1); (rnd64 0.7, 1)]
       = Returns owed
       /\ @py_repr binary64 owed == 0.4099999999999999
       /\ ~ owed == Spec.bracket_sum (rnd64 0.41)
                      [(0, 1); (rnd64 0.1, 1); (rnd64 0.3, 1); (rnd64 0.7, 1)]
       /\ ~ owed == @float_bracket_sum binary64 (rnd64 0.41)
                      [(0, 1); (rnd64 0.1, 1); (rnd64 0.3, 1); (rnd64 0.7, 1)].
Proof.
  split; [vm_compute; discriminate |].
  split; [cbn; repeat split; vm_compute; reflexivity |].
  eexists. split; [vm_compute; reflexivity |].
  split; [vm_compute; reflexivity |].
  split; vm_compute; discriminate.
Qed.

(** C1 as the code has it.  On a valid table and for a non-negative amount,
    when no subtraction of the walk rounds (the differences of consecutive
    lower bounds, and of the amount and the lower bounds below it, are
    floats, as for whole numbers), the call returns the sum over the brackets
    [i] with [base_amount > t_i] of
    [(min(base_amount, t_{i+1}) - t_i) * rate_i], each product and each
    addition rounded as the code rounds them, in the order of the table. *)
Theorem progressive_tax_is_bracket_sum (F : float_format) (L : rounding_laws F)
    (base_amount : Q) (brackets : list bracket) :
  0 <= base_amount ->
  Spec.valid_table brackets ->
  exact_differences base_amount brackets ->
  exists owed : Q,
    Float._calculate_progressive_tax base_amount brackets = Returns owed
    /\ owed == float_bracket_sum base_amount brackets.
Proof.
  intros _ Hvalid Hexact. exists (float_tax_value base_amount brackets).
  split; [apply float_calculate_progressive_tax_returns |].
  apply float_tax_value_bracket_sum; assumption.
Qed.

(** The US federal table at an annual income of 60000, in binary64: the
    call returns 8948.5. *)
Lemma progressive_tax_is_bracket_sum_witness :
  0 <= 60000
  /\ Spec.valid_table
       (federal_income_tax_brackets (cfg_US (@float_tax_configurations binary64)))
  /\ @exact_differences binary64 60000
       (federal_income_tax_brackets (cfg_US (@float_tax_configurations binary64)))
  /\ exists owed : Q,
       @Float._calculate_progressive_tax binary64 60000
         (federal_income_tax_brackets (cfg_US (@float_tax_configurations binary64)))
       = Returns owed
       /\ owed == @float_bracket_sum binary64 60000
                    (federal_income_tax_brackets
                       (cfg_US (@float_tax_configurations binary64)))
       /\ owed == 8948.5.
Proof.
  assert (H0 : 0 <= 60000) by q_closed.
  assert (Hvalid : Spec.valid_table
            (federal_income_tax_brackets
               (cfg_US (@float_tax_configurations binary64))))
    by (cbn; repeat split; vm_compute; reflexivity).
  assert (Hexact : @exact_differences binary64 60000
            (federal_income_tax_brackets
               (cfg_US (@float_tax_configurations binary64))))
    by (cbn; repeat split; try (intros _); vm_compute; reflexivity).
  destruct (progressive_tax_is_bracket_sum binary64 binary64_laws 60000 _
              H0 Hvalid Hexact) as (owed & Hcall & Hsum).
  repeat split; try assumption.
  exists owed. repeat split; try assumption.
  vm_compute in Hcall. injection Hcall as <-. vm_compute. reflexivity.
Defined.

(** C2.  On [[(0, 0.10), (1000, 0.20)]] the amount 1500 owes 200: already a
    whole number of cents, so 200.00 after rounding as well. *)
Theorem two_bracket_scenario :
  exists owed : Q,
    _calculate_progressive_tax 1500 [(0, 0.10); (1000, 0.20)] = Returns owed
    /\ owed == 1000 * 0.10 + 500 * 0.20
    /\ owed == 200
    /\ _round_decimal owed = 200.00.
Proof.
  eexists. split; [vm_compute; reflexivity |].
  repeat split; vm_compute; reflexivity.
Qed.

(** The same scenario in binary64: the call returns 200.0 and
    [_round_decimal] leaves it. *)
Example two_bracket_scenario_binary64 :
  exists owed : Q,
    @Float._calculate_progressive_tax binary64 1500
      [(0, rnd64 0.10); (1000, rnd64 0.20)] = Returns owed
    /\ owed == 200
    /\ @Float._round_decimal binary64 owed = Returns 200.
Proof.
  eexists. split; [vm_compute; reflexivity |].
  split; vm_compute; reflexivity.
Qed.

(** C3 fails on the code: no table, malformed or not, makes the call raise
    [InvalidConfiguration]; the table [[(100, 0.1), (0, 0.2)]] is malformed
    and the call on it returns (20 for the amount 150). *)
Lemma invalid_configuration_never_raised :
  Spec.malformed [(100, 0.1); (0, 0.2)]
  /\ (exists owed : Q,
        _calculate_progressive_tax 150 [(100, 0.1); (0, 0.2)] = Returns owed
        /\ owed == 20)
  /\ ~ (exists (brackets : list bracket) (base_amount : Q),
          Spec.malformed brackets
          /\ _calculate_progressive_tax base_amount brackets
             = Raises InvalidConfiguration).
Proof.
  split; [| split].
  - intros [H _]. revert H. q_closed.
  - eexists. split; vm_compute; reflexivity.
  - intros (brackets & base_amount & _ & Hraise).
    rewrite calculate_progressive_tax_returns in Hraise. discriminate.
Qed.

(** C3 as the code has it: the table is not validated.  On every malformed
    table the call returns a number and raises nothing; on the empty table
    that number is 0. *)
Theorem malformed_table_returns (base_amount : Q) (brackets : list bracket) :
  Spec.malformed brackets ->
  (exists owed : Q,
     _calculate_progressive_tax base_amount brackets = Returns owed)
  /\ (forall e : py_error,
        _calculate_progressive_tax base_amount brackets <> Raises e)
  /\ (brackets = [] ->
      _calculate_progressive_tax base_amount brackets = Returns 0).
Proof.
  intros _. rewrite calculate_progressive_tax_returns.
  split; [eexists; reflexivity |].
  split; [intros e; discriminate |].
  intros ->. reflexivity.
Qed.

(** The table [[(100, 0.1), (0, 0.2)]] at the amount 150. *)
Lemma malformed_table_returns_witness :
  Spec.malformed [(100, 0.1); (0, 0.2)]
  /\ (exists owed : Q,
        _calculate_progressive_tax 150 [(100, 0.1); (0, 0.2)] = Returns owed).
Proof.
  assert (Hbad : Spec.malformed [(100, 0.1); (0, 0.2)])
    by (intros [H _]; revert H; q_closed).
  exact (conj Hbad (proj1 (malformed_table_returns 150 _ Hbad))).
Defined.

(** C4 fails on the code: the amount -5 is not rejected, the call returns 0. *)
Lemma negative_input_not_rejected :
  _calculate_progressive_tax (-5) [(0, 0.10); (1000, 0.20)] = Returns 0
  /\ _calculate_progressive_tax (-5) [(0, 0.10); (1000, 0.20)]
     <> Raises InvalidInput.
Proof.
  assert (H : _calculate_progressive_tax (-5) [(0, 0.10); (1000, 0.20)] = Returns 0)
    by (vm_compute; reflexivity).
  split; [exact H | rewrite H; discriminate].
Qed.

(** C4 as the code has it: for every negative amount and every table the
    call raises nothing and returns 0. *)
Theorem negative_income_returns_zero (base_amount : Q) (brackets : list bracket) :
  base_amount < 0 ->
  _calculate_progressive_tax base_amount brackets = Returns 0
  /\ forall e : py_error,
       _calculate_progressive_tax base_amount brackets <> Raises e.
Proof.
  intros Hneg. rewrite calculate_progressive_tax_returns.
  rewrite progressive_tax_value_nonpos by lra.
  split; [reflexivity | intros e; discriminate].
Qed.

(** The amount -5 on the two-bracket table. *)
Lemma negative_income_returns_zero_witness :
  -5 < 0
  /\ _calculate_progressive_tax (-5) [(0, 0.10); (1000, 0.20)] = Returns 0.
Proof.
  assert (Hneg : -5 < 0) by q_closed.
  exact (conj Hneg (proj1 (negative_income_returns_zero (-5) _ Hneg))).
Defined.



(** C6 fails on the code: the value [_calculate_progressive_tax] returns is
    not rounded.  On the flat table [[(0, 0.10)]] the amount 0.05 owes
    0.005000000000000001, which is no whole number of cents and differs from
    what [_round_decimal] makes of it, 0.01. *)
Lemma progressive_tax_not_rounded :
  exists owed : Q,
    @Float._calculate_progressive_tax binary64 (rnd64 0.05) [(0, rnd64 0.10)]
    = Returns owed
    /\ @py_repr binary64 owed == 0.005000000000000001
    /\ @Float._round_decimal binary64 owed = Returns (rnd64 0.01)
    /\ ~ owed == rnd64 0.01
    /\ ~ (exists cents : Z, owed == cents # 100).
Proof.
  eexists. split; [vm_compute; reflexivity |].
  split; [vm_compute; reflexivity |].
  split; [vm_compute; reflexivity |].
  split; [vm_compute; discriminate |].
  intros [cents H]. revert H. unfold Qeq. cbn [Qnum Qden]. lia.
Qed.

(** C6 as the code has it.  [_round_decimal] takes the decimal that [str]
    prints, rounds it to a whole number of cents, the nearest one, a tie
    going away from zero; it raises [InvalidOperation] when that number has
    more than 28 digits and returns the float nearest to the rounded decimal
    otherwise.  The bracket walk does no such rounding: where no subtraction
    rounds it returns the sum of the products as the arithmetic of the code
    gives it.  [_calculate_deductions] applies [_round_decimal] once to each
    positive entry of the dictionary built before the [return]: it returns
    these rounded entries when all of them can be rounded and raises
    [InvalidOperation] otherwise, and every value it returns is what
    [_round_decimal] returned on such an entry. *)
Theorem rounding_policy (F : float_format) (L : rounding_laws F) :
  (forall value : Q,
     let printed := py_repr value in
     let cents := quantize_half_up printed in
     Qabs ((cents # 100) - printed) <= 1 # 200
     /\ (Qabs ((cents # 100) - printed) == 1 # 200 ->
         Qabs printed < Qabs (cents # 100))
     /\ (((Z.abs cents < 10 ^ 28)%Z
          /\ Float._round_decimal value = Returns (rnd (cents # 100)))
         \/ ((10 ^ 28 <= Z.abs cents)%Z
             /\ Float._round_decimal value = Raises InvalidOperation)))
  /\ (forall (base_amount : Q) (brackets : list bracket),
        Spec.valid_table brackets ->
        exact_differences base_amount brackets ->
        exists owed : Q,
          Float._calculate_progressive_tax base_amount brackets = Returns owed
          /\ owed == float_bracket_sum base_amount brackets)
  /\ (forall (self : tax_configurations) (e : employee)
             (earnings : list (string * Q)) (region : string),
        exists raw : gmap string Q,
          raw_deductions self e earnings region = Returns raw
          /\ ((roundable raw
               /\ _calculate_deductions self e earnings region
                  = Returns (omap rounded_entry raw))
              \/ (~ roundable raw
                  /\ _calculate_deductions self e earnings region
                     = Raises InvalidOperation)))
  /\ (forall (self : tax_configurations) (e : employee)
             (earnings : list (string * Q)) (region k : string)
             (final : gmap string Q) (v : Q),
        _calculate_deductions self e earnings region = Returns final ->
        final !! k = Some v ->
        exists (raw : gmap string Q) (amount : Q),
          raw_deductions self e earnings region = Returns raw
          /\ raw !! k = Some amount /\ 0 < amount
          /\ Float._round_decimal amount = Returns v).
Proof.
  split; [| split; [| split]].
  - intros value printed cents.
    split; [exact (round_decimal_error printed) |].
    split; [exact (round_decimal_tie_away printed) |].
    exact (float_round_decimal_cases value).
  - intros base_amount brackets Hvalid Hexact.
    exists (float_tax_value base_amount brackets).
    split; [apply float_calculate_progressive_tax_returns |].
    apply float_tax_value_bracket_sum; assumption.
  - intros self e earnings region. apply calculate_deductions_outcome.
  - intros self e earnings region k final v.
    apply calculate_deductions_rounded.
Qed.

(** In binary64: 2.675 is printed as 2.675 and rounded to 2.68, although
    the float lies below 2.675; 1e26 cannot be rounded. *)
Lemma rounding_policy_witness :
  rounding_laws binary64
  /\ @py_repr binary64 (rnd64 2.675) == 2.675
  /\ rnd64 2.675 < 2.675
  /\ @Float._round_decimal binary64 (rnd64 2.675) = Returns (rnd64 2.68)
  /\ @Float._round_decimal binary64 (rnd64 (10 ^ 26)) = Raises InvalidOperation.
Proof.
  pose proof (rounding_policy binary64 binary64_laws) as (Hround & _).
  split; [exact binary64_laws |].
  split; [vm_compute; reflexivity |].
  split; [vm_compute; reflexivity |].
  split.
  - destruct (Hround (rnd64 2.675)) as (_ & _ & [[_ H] | [Hbig _]]).
    + rewrite H. vm_compute. reflexivity.
    + exfalso. revert Hbig. vm_compute. intros Hbig. apply Hbig. reflexivity.
  - destruct (Hround (rnd64 (10 ^ 26))) as (_ & _ & [[Hsmall _] | [_ H]]).
    + exfalso. revert Hsmall. vm_compute. discriminate.
    + exact H.
Defined.



(** C8.  In each of the regions US, IN and UK the monthly income-tax entry is
    the progressive calculation on [gross_pay * 12] against the region's
    annual table, divided by 12, in that order.  The call returns when every
    positive entry can be rounded and raises [InvalidOperation] otherwise;
    the entry returned is what [_round_decimal] makes of that amount, and is
    absent when the amount is not positive. *)
Theorem monthly_income_tax_annualized (F : float_format)
    (self : tax_configurations) (e : employee)
    (earnings : list (string * Q)) (region : string) :
  region = "US"%string \/ region = "IN"%string \/ region = "UK"%string ->
  exists (annual_tax : Q) (raw : gmap string Q),
    Float._calculate_progressive_tax (fmul (gross_pay_of earnings) 12)
      (annual_brackets self region) = Returns annual_tax
    /\ raw_deductions self e earnings region = Returns raw
    /\ raw !! income_tax_key region = Some (fdiv annual_tax 12)
    /\ ((roundable raw
         /\ _calculate_deductions self e earnings region
            = Returns (omap rounded_entry raw))
        \/ (~ roundable raw
            /\ _calculate_deductions self e earnings region
               = Raises InvalidOperation))
    /\ forall final : gmap string Q,
         _calculate_deductions self e earnings region = Returns final ->
         final !! income_tax_key region = rounded_entry (fdiv annual_tax 12).
Proof.
  intros Hregion.
  destruct (region_deductions_income_tax self (gross_pay_of earnings) region Hregion)
    as (deductions & Hd & Htax).
  assert (Hkey : region_key (income_tax_key region)).
  { destruct Hregion as [-> | [-> | ->]];
      [apply region_key_federal_income_tax | apply region_key_income_tax ..]. }
  destruct (calculate_deductions_entry self e earnings region _ deductions _
              Hkey Hd Htax) as (raw & Hraw & Hr & Hf).
  exists (float_tax_value (fmul (gross_pay_of earnings) 12)
            (annual_brackets self region)), raw.
  split; [apply float_calculate_progressive_tax_returns |].
  split; [exact Hraw |]. split; [exact Hr |].
  split; [exact (calculate_deductions_of_raw _ _ _ _ _ Hraw) | exact Hf].
Qed.

(** A monthly salary of 13.45 in region US, in binary64: the annual amount
    is 161.39999999999998, the monthly tax 1.3449999999999998, and the entry
    returned 1.34. *)
Lemma monthly_income_tax_annualized_witness :
  ("US" = "US" \/ "US" = "IN" \/ "US" = "UK")%string
  /\ @py_repr binary64
       (@fmul binary64 (@gross_pay_of binary64 [("basic_salary"%string, rnd64 13.45)]) 12)
     == 161.39999999999998
  /\ exists (annual_tax : Q) (final : gmap string Q),
       @Float._calculate_progressive_tax binary64
         (@fmul binary64
            (@gross_pay_of binary64 [("basic_salary"%string, rnd64 13.45)]) 12)
         (federal_income_tax_brackets (cfg_US (@float_tax_configurations binary64)))
       = Returns annual_tax
       /\ @py_repr binary64 (@fdiv binary64 annual_tax 12) == 1.3449999999999998
       /\ @_calculate_deductions binary64 (@float_tax_configurations binary64)
            (Employee None None []) [("basic_salary"%string, rnd64 13.45)] "US"
          = Returns final
       /\ final !! "federal_income_tax"%string = Some (rnd64 1.34).
Proof.
  set (earnings := [("basic_salary"%string, rnd64 13.45)]).
  assert (Hregion : ("US" = "US" \/ "US" = "IN" \/ "US" = "UK")%string)
    by (left; reflexivity).
  destruct (monthly_income_tax_annualized binary64
              (@float_tax_configurations binary64)
              (Employee None None []) earnings "US" Hregion)
    as (annual_tax & raw & Hcall & _ & _ & _ & Hentry).
  split; [exact Hregion |].
  split; [vm_compute; reflexivity |].
  assert (Hreturns : exists final : gmap string Q,
            @_calculate_deductions binary64 (@float_tax_configurations binary64)
              (Employee None None []) earnings "US" = Returns final)
    by (eexists; vm_compute; reflexivity).
  destruct Hreturns as [final Hfinal].
  exists annual_tax, final.
  split; [exact Hcall |].
  pose proof (Hentry final Hfinal) as Hvalue.
  change (annual_brackets (@float_tax_configurations binary64) "US")
    with (federal_income_tax_brackets (cfg_US (@float_tax_configurations binary64)))
    in Hcall.
  vm_compute in Hcall. injection Hcall as <-.
  split; [vm_compute; reflexivity |].
  split; [exact Hfinal |].
  etransitivity; [exact Hvalue |]. vm_compute. reflexivity.
Defined.

(** C9.  For every bracket list, the empty one included, and every income
    [<= 0] the call returns 0 and raises nothing. *)
Theorem nonpositive_income_returns_zero (annual_income : Q)
    (tax_brackets : list bracket) :
  annual_income <= 0 ->
  _calculate_progressive_tax annual_income tax_brackets = Returns 0.
Proof.
  intros Hle. rewrite calculate_progressive_tax_returns.
  now rewrite progressive_tax_value_nonpos.
Qed.

(** Income 0 on the empty table and on the US federal table. *)
Lemma nonpositive_income_returns_zero_witness :
  0 <= 0
  /\ _calculate_progressive_tax 0 [] = Returns 0
  /\ _calculate_progressive_tax 0
       (federal_income_tax_brackets (cfg_US init_tax_configurations)) = Returns 0.
Proof.
  assert (H0 : 0 <= 0) by q_closed.
  exact (conj H0 (conj (nonpositive_income_returns_zero 0 [] H0)
                       (nonpositive_income_returns_zero 0 _ H0))).
Defined.



